(** * Authentication and authorization of the user controller

    A shallow embedding of [src/controllers/user.controller.ts] and of the
    services it is wired to (validator, password hasher, user service, token
    service, authorization guard, user repository), followed by the
    properties of sign-up, login, the guard and the [me] endpoint.

    TypeScript [async] methods become computations in a state-and-exception
    monad over a [World] holding the user store, the clock, the object heap
    and a ghost log of the collaborator calls made so far. *)

From Stdlib Require Import ZArith NArith Ascii.
From stdpp Require Import base option strings pretty list gmap.

Local Open Scope Z_scope.
Local Open Scope string_scope.

(** ** Data model *)

(** Modelled from the spec: [authorization/permission-keys.ts] is the enum of
    permission tags; a tag is the string the spec names it by. *)
Definition PermissionKey : Type := string.

Module PermissionKeys.
Definition UserBasic : PermissionKey := "UserBasic".
Definition UserManagement : PermissionKey := "UserManagement".
Definition AuthFeatures : PermissionKey := "AuthFeatures".
Definition GetBlogs : PermissionKey := "GetBlogs".
End PermissionKeys.

(** The JavaScript values an identifier slot of a profile can hold. *)
Inductive Value : Type :=
  | VUndefined
  | VNum (n : Z)
  | VStr (s : string).

#[global] Instance Value_eq_dec : EqDecision Value.
Proof. solve_decision. Defined.

(** The [User] model: [id] is absent until the store assigns it. *)
Record User : Type := mkUser {
  user_id : option Z;
  user_email : string;
  user_password : string;
  user_permissions : list PermissionKey
}.

#[global] Instance User_eq_dec : EqDecision User.
Proof. solve_decision. Defined.

Definition set_user_id (v : option Z) (u : User) : User :=
  mkUser v (user_email u) (user_password u) (user_permissions u).
Definition set_user_password (v : string) (u : User) : User :=
  mkUser (user_id u) (user_email u) v (user_permissions u).
Definition set_user_permissions (v : list PermissionKey) (u : User) : User :=
  mkUser (user_id u) (user_email u) (user_password u) v.

Record Credentials : Type := mkCredentials {
  cred_email : string;
  cred_password : string
}.

(** [UserProfile] of @loopback/security: the reserved [securityId] slot, the
    business [id] attribute and the permissions attribute. *)
Record UserProfile : Type := mkProfile {
  securityId : Value;
  profile_id : Value;
  profile_permissions : list PermissionKey
}.

#[global] Instance UserProfile_eq_dec : EqDecision UserProfile.
Proof. solve_decision. Defined.

Definition set_securityId (v : Value) (p : UserProfile) : UserProfile :=
  mkProfile v (profile_id p) (profile_permissions p).
Definition set_profile_id (v : Value) (p : UserProfile) : UserProfile :=
  mkProfile (securityId p) v (profile_permissions p).
Definition set_profile_permissions (v : list PermissionKey) (p : UserProfile)
  : UserProfile :=
  mkProfile (securityId p) (profile_id p) v.

(** Modelled from the spec: the token is a self-contained signed structure
    carrying the claims, issuedAt and expiresAt; any other string presented
    as a token is [Garbage]. *)
Record Payload : Type := mkPayload {
  claims : UserProfile;
  iat : Z;
  exp : Z
}.

Inductive Token : Type :=
  | Garbage (raw : string)
  | Jwt (payload : Payload) (signature : string).

Record LoginResponse : Type := mkLoginResponse { token : Token }.

(** Modelled from the spec: the error taxonomy of section 7. [TypeError] is
    what JavaScript raises on a property access through a missing object. *)
Inductive HttpError : Type :=
  | ValidationError
  | InvalidCredentials
  | TokenInvalid
  | TokenExpired
  | MissingToken
  | InsufficientPermission
  | DuplicateEmail
  | TypeError.

#[global] Instance HttpError_eq_dec : EqDecision HttpError.
Proof. solve_decision. Defined.

(** ** The world and the monad *)

(** Ghost log: one entry per call to a collaborator, oldest first. *)
Inductive Call : Type :=
  | CValidateCredentials (c : Credentials)
  | CHashPassword (plain : string)
  | CCreate (u : User)
  | CVerifyCredentials (c : Credentials)
  | CGenerateToken (p : UserProfile).

Definition loc : Type := nat.

Record World : Type := mkWorld {
  users : list User;          (* rows of the user store, insertion order *)
  nextId : Z;                 (* next id the store hands out *)
  rng : N;                    (* entropy consumed by salt generation *)
  now : Z;                    (* clock *)
  heap : list UserProfile;    (* profile objects, addressed by reference *)
  calls : list Call           (* ghost log *)
}.

Definition set_users (v : list User) (w : World) : World :=
  mkWorld v (nextId w) (rng w) (now w) (heap w) (calls w).
Definition set_nextId (v : Z) (w : World) : World :=
  mkWorld (users w) v (rng w) (now w) (heap w) (calls w).
Definition set_rng (v : N) (w : World) : World :=
  mkWorld (users w) (nextId w) v (now w) (heap w) (calls w).
Definition set_heap (v : list UserProfile) (w : World) : World :=
  mkWorld (users w) (nextId w) (rng w) (now w) v (calls w).
Definition set_calls (v : list Call) (w : World) : World :=
  mkWorld (users w) (nextId w) (rng w) (now w) (heap w) v.

Definition Result (A : Type) : Type := (HttpError + A)%type.

(** A computation either throws or returns, and leaves a world behind in
    both cases: an exception does not roll anything back. *)
Definition M (A : Type) : Type := World -> Result A * World.

Definition ret {A} (a : A) : M A := fun w => (inr a, w).
Definition throw {A} (e : HttpError) : M A := fun w => (inl e, w).
Definition bind {A B} (m : M A) (k : A -> M B) : M B :=
  fun w => match m w with
           | (inl e, w1) => (inl e, w1)
           | (inr a, w1) => k a w1
           end.
Definition get : M World := fun w => (inr w, w).
Definition modify (f : World -> World) : M unit := fun w => (inr tt, f w).
Definition liftResult {A} (r : Result A) : M A := fun w => (r, w).

#[global] Instance M_ret : MRet M := @ret.
#[global] Instance M_bind : MBind M := fun A B k m => bind m k.

Definition call (c : Call) : M unit :=
  modify (fun w => set_calls (calls w ++ [c]) w).

(** Heap access: reading or writing through a reference that designates no
    object raises [TypeError]. *)
Definition deref (l : loc) : M UserProfile :=
  w ← get;
  match heap w !! l with
  | Some p => ret p
  | None => throw TypeError
  end.

Definition assign (l : loc) (p : UserProfile) : M unit :=
  w ← get;
  match heap w !! l with
  | Some _ => modify (set_heap (<[l := p]> (heap w)))
  | None => throw TypeError
  end.

(** ** Bindings *)

(** Modelled from the spec: the password policy of the validator, a minimum
    length and three independently togglable character-class requirements. *)
Record PasswordPolicy : Type := mkPolicy {
  minLength : nat;
  requireUppercase : bool;
  requireDigit : bool;
  requireSymbol : bool
}.

(** What [keys.ts] and the third-party libraries supply: the address syntax
    check, e-mail normalisation, the bcrypt primitives, the signature
    primitive, and the token configuration. *)
Record Bindings : Type := mkBindings {
  isEmail : string -> bool;
  normalizeEmail : string -> string;
  policy : PasswordPolicy;
  bcryptHash : N -> string -> string;
  bcryptCompare : string -> string -> bool;
  sign : string -> Payload -> string;
  TOKEN_SECRET : string;
  TOKEN_EXPIRES_IN : Z
}.

(** ** Character classes *)

Definition isUpper (c : ascii) : bool :=
  (65 <=? nat_of_ascii c)%nat && (nat_of_ascii c <=? 90)%nat.
Definition isLower (c : ascii) : bool :=
  (97 <=? nat_of_ascii c)%nat && (nat_of_ascii c <=? 122)%nat.
Definition isDigit (c : ascii) : bool :=
  (48 <=? nat_of_ascii c)%nat && (nat_of_ascii c <=? 57)%nat.
Definition isSymbol (c : ascii) : bool :=
  negb (isUpper c || isLower c || isDigit c).

Fixpoint anyChar (p : ascii -> bool) (s : string) : bool :=
  match s with
  | EmptyString => false
  | String c rest => p c || anyChar p rest
  end.

Definition classesOk (pol : PasswordPolicy) (password : string) : bool :=
  (negb (requireUppercase pol) || anyChar isUpper password)
  && (negb (requireDigit pol) || anyChar isDigit password)
  && (negb (requireSymbol pol) || anyChar isSymbol password).

(** A permissions array read as the set of its tags. *)
Definition permSet (l : list PermissionKey) : gset PermissionKey :=
  list_to_set l.

Section Services.

Context (B : Bindings).

(** ** CredentialValidator *)

(** Modelled from the spec: [services/validator.ts]. Rejects with
    [ValidationError] an address that is not well formed, a password below
    the minimum length, or one failing the character-class policy; it has no
    side effect. *)
Definition validate (c : Credentials) : Result unit :=
  if negb (isEmail B (cred_email c)) then inl ValidationError
  else if (String.length (cred_password c) <? minLength (policy B))%nat
       then inl ValidationError
  else if negb (classesOk (policy B) (cred_password c)) then inl ValidationError
  else inr tt.

Definition validateCredentials (c : Credentials) : M unit :=
  call (CValidateCredentials c);;
  liftResult (validate c).

(** ** PasswordHasher *)

Definition genSalt : M N :=
  w ← get;
  modify (set_rng (N.succ (rng w)));;
  mret (rng w).

(** Modelled from the spec: [services/hash.password.bcrypt.ts]. Hashing is
    salted with fresh entropy and rejects the empty input; comparison is a
    total boolean. *)
Definition hashPassword (plain : string) : M string :=
  call (CHashPassword plain);;
  if decide (plain = "") then throw ValidationError
  else salt ← genSalt; mret (bcryptHash B salt plain).

Definition comparePassword (plain hashed : string) : bool :=
  bcryptCompare B plain hashed.

(** ** User repository *)

Definition findByEmail (e : string) (rows : list User) : option User :=
  List.find (fun r => bool_decide (user_email r = e)) rows.

(** Modelled from the spec: [repositories/user.repository.ts], the store's
    [create]. The e-mail is unique ([DuplicateEmail] otherwise); the store
    assigns the id and hands back the created row as a new instance. *)
Definition create (u : User) : M User :=
  call (CCreate u);;
  w ← get;
  match findByEmail (user_email u) (users w) with
  | Some _ => throw DuplicateEmail
  | None =>
      let row := set_user_id (Some (nextId w)) u in
      modify (fun w => set_nextId (nextId w + 1) (set_users (users w ++ [row]) w));;
      mret row
  end.

(** ** UserService *)

(** Modelled from the spec: [services/user.service.ts], [verifyCredentials].
    Unknown e-mail and wrong password raise the same [InvalidCredentials]. *)
Definition verifyCredentials (c : Credentials) : M User :=
  call (CVerifyCredentials c);;
  w ← get;
  match findByEmail (normalizeEmail B (cred_email c)) (users w) with
  | None => throw InvalidCredentials
  | Some r =>
      if comparePassword (cred_password c) (user_password r)
      then mret r
      else throw InvalidCredentials
  end.

Definition idValue (i : option Z) : Value :=
  match i with
  | Some n => VNum n
  | None => VUndefined
  end.

(** Modelled from the spec: [services/user.service.ts],
    [convertToUserProfile]. Copies the id to the subject identifier and the
    permissions to the permission set. *)
Definition convertToUserProfile (r : User) : UserProfile :=
  {| securityId := idValue (user_id r);
     profile_id := VUndefined;
     profile_permissions := user_permissions r |}.

(** ** TokenService *)

(** Modelled from the spec: [services/jwt-service.ts]. [issue] packs the
    claims with issuedAt and expiresAt and signs them with the process-wide
    secret. *)
Definition issue (c : UserProfile) (ttl : Z) (t : Z) : Token :=
  let body := {| claims := c; iat := t; exp := t + ttl |} in
  Jwt body (sign B (TOKEN_SECRET B) body).

(** Modelled from the spec: [verify] at time [t]. [TokenInvalid] for a
    malformed token or a signature that does not match, [TokenExpired] when
    the time is past expiresAt, the embedded claims otherwise. *)
Definition verify (tok : Token) (t : Z) : Result UserProfile :=
  match tok with
  | Garbage _ => inl TokenInvalid
  | Jwt body sig =>
      if decide (sig = sign B (TOKEN_SECRET B) body)
      then if decide (t > exp body) then inl TokenExpired
           else inr (claims body)
      else inl TokenInvalid
  end.

Definition generateToken (p : UserProfile) : M Token :=
  call (CGenerateToken p);;
  w ← get;
  mret (issue p (TOKEN_EXPIRES_IN B) (now w)).

Definition verifyToken (tok : Token) : M UserProfile :=
  w ← get;
  liftResult (verify tok (now w)).

(** ** AuthorizationGuard *)

Inductive GuardState : Type :=
  | Unauthenticated
  | TokenPresented (tok : Token)
  | TokenVerified (c : UserProfile)
  | PermissionChecked (c : UserProfile) (common : gset PermissionKey)
  | Allowed (c : UserProfile)
  | Denied (e : HttpError).

(** Modelled from the spec: the guard's state machine (section 4.5), which
    stands for the [@authenticate] strategy of [src/authentication]. One
    transition per step; [Allowed] and [Denied] are terminal. *)
Definition guardStep (required : list PermissionKey) (bearer : option Token)
    (t : Z) (s : GuardState) : GuardState :=
  match s with
  | Unauthenticated =>
      match bearer with
      | Some tok => TokenPresented tok
      | None => Denied MissingToken
      end
  | TokenPresented tok =>
      match verify tok t with
      | inr c => TokenVerified c
      | inl e => Denied e
      end
  | TokenVerified c =>
      PermissionChecked c
        (permSet required ∩ permSet (profile_permissions c))
  | PermissionChecked c common =>
      if decide (common = permSet required) then Allowed c
      else Denied InsufficientPermission
  | Allowed c => Allowed c
  | Denied e => Denied e
  end.

Definition guardRun (required : list PermissionKey) (bearer : option Token)
    (t : Z) : GuardState :=
  Nat.iter 4 (guardStep required bearer t) Unauthenticated.

Definition guard (required : list PermissionKey) (bearer : option Token)
  : M UserProfile :=
  w ← get;
  match guardRun required bearer (now w) with
  | Allowed c => mret c
  | Denied e => throw e
  | _ => throw TokenInvalid
  end.

(** A protected operation: the body runs on the verified claims only when
    the guard ends in [Allowed]. *)
Definition authenticate {A} (required : list PermissionKey)
    (bearer : option Token) (body : UserProfile -> M A) : M A :=
  c ← guard required bearer;
  body c.

(** ** UserController *)

Definition pick (userData : User) : Credentials :=
  {| cred_email := user_email userData;
     cred_password := user_password userData |}.

Definition signup (userData : User) : M User :=
  validateCredentials (pick userData);;
  let userData :=
    set_user_permissions
      [PermissionKeys.AuthFeatures; PermissionKeys.GetBlogs] userData in
  hashed ← hashPassword (user_password userData);
  let userData := set_user_password hashed userData in
  newUser ← create userData;
  let newUser := set_user_password "" newUser in
  mret newUser.

Definition login (credentials : Credentials) : M LoginResponse :=
  user ← verifyCredentials credentials;
  let userProfile := convertToUserProfile user in
  let userProfile := set_profile_permissions (user_permissions user) userProfile in
  jwt ← generateToken userProfile;
  mret {| token := jwt |}.

(** An absent [where] or [filter] argument keeps every row, as stored. A
    present one is read here as a row predicate only: the fields, limit,
    skip and order parts of a LoopBack filter are not modelled, so nothing
    below is stated about a filtered call. *)
Definition rowsMatching (where_ : option (User -> bool)) (rows : list User)
  : list User :=
  match where_ with
  | Some p => List.filter p rows
  | None => rows
  end.

Definition count (where_ : option (User -> bool)) : M nat :=
  w ← get;
  mret (length (rowsMatching where_ (users w))).

Definition find (filter : option (User -> bool)) : M (list User) :=
  w ← get;
  mret (rowsMatching filter (users w)).

(** [currentUser] is a reference to the profile object bound to the request;
    both assignments go through it and the same reference is returned. *)
Definition me (currentUser : loc) : M loc :=
  p ← deref currentUser;
  assign currentUser (set_profile_id (securityId p) p);;
  p ← deref currentUser;
  assign currentUser (set_securityId (VStr "") p);;
  mret currentUser.

(** The protected operations and the [required] option of their
    [@authenticate] decorator. *)
Inductive Operation : Type :=
  | Count | Find | FindById | ReplaceById | DeleteById | Me.

Definition required (op : Operation) : list PermissionKey :=
  match op with
  | Count => [PermissionKeys.UserBasic]
  | Find | FindById | ReplaceById | DeleteById => [PermissionKeys.UserManagement]
  | Me => [PermissionKeys.AuthFeatures]
  end.

Definition countRoute (bearer : option Token) (where_ : option (User -> bool))
  : M nat :=
  authenticate (required Count) bearer (fun _ => count where_).

Definition findRoute (bearer : option Token) (filter : option (User -> bool))
  : M (list User) :=
  authenticate (required Find) bearer (fun _ => find filter).

End Services.

(** The permission set every new account starts with. *)
Definition defaultPermissions : list PermissionKey :=
  [PermissionKeys.AuthFeatures; PermissionKeys.GetBlogs].

(** The world after one more entry in the ghost log. *)
Definition logged (k : Call) (w : World) : World :=
  set_calls (calls w ++ [k]) w.

(** ** A concrete set of bindings

    Small stand-ins for the third-party primitives, used to run the
    controller on concrete requests. *)

Module Sample.

Definition hasAt (s : string) : bool :=
  anyChar (fun c => bool_decide (c = "@"%char)) s.

Definition lowerChar (c : ascii) : ascii :=
  if isUpper c then ascii_of_nat (nat_of_ascii c + 32) else c.

Fixpoint lower (s : string) : string :=
  match s with
  | EmptyString => EmptyString
  | String c rest => String (lowerChar c) (lower rest)
  end.

Definition saltChar (salt : N) : ascii := ascii_of_N (97 + salt mod 26).

Definition hash (salt : N) (plain : string) : string :=
  String (saltChar salt) ("$" ++ plain).

Definition compare (plain hashed : string) : bool :=
  match hashed with
  | String _ rest => bool_decide (rest = "$" ++ plain)
  | EmptyString => false
  end.

Definition showValue (v : Value) : string :=
  match v with
  | VUndefined => "undefined"
  | VNum n => pretty n
  | VStr s => s
  end.

Definition mac (secret : string) (body : Payload) : string :=
  secret ++ "." ++ showValue (securityId (claims body))
         ++ "." ++ showValue (profile_id (claims body))
         ++ "." ++ String.concat "," (profile_permissions (claims body))
         ++ "." ++ pretty (iat body) ++ "." ++ pretty (exp body).

Definition bindings : Bindings :=
  {| isEmail := hasAt;
     normalizeEmail := lower;
     policy := {| minLength := 8; requireUppercase := true;
                  requireDigit := true; requireSymbol := true |};
     bcryptHash := hash;
     bcryptCompare := compare;
     sign := mac;
     TOKEN_SECRET := "s3cr3t";
     TOKEN_EXPIRES_IN := 3600 |}.

Definition world0 : World :=
  {| users := []; nextId := 1; rng := 0; now := 1000; heap := []; calls := [] |}.

(** A sign-up request that also carries an id and a permissions field. *)
Definition alice : User :=
  {| user_id := Some 77; user_email := "a@b.com";
     user_password := "Str0ng!Pass";
     user_permissions := [PermissionKeys.UserManagement] |}.

Definition world1 : World := snd (signup bindings alice world0).

Definition aliceClaims : UserProfile :=
  {| securityId := VNum 1; profile_id := VUndefined;
     profile_permissions := [PermissionKeys.AuthFeatures; PermissionKeys.GetBlogs] |}.

Definition aliceToken : Token := issue bindings aliceClaims 3600 1000.

(** The row the store keeps for [alice] and the record sign-up answers. *)
Definition aliceRow : User :=
  {| user_id := Some 1; user_email := "a@b.com";
     user_password := hash 0 "Str0ng!Pass";
     user_permissions := defaultPermissions |}.

Definition aliceCreated : User := set_user_password "" aliceRow.

Definition goodLogin : Credentials :=
  {| cred_email := "A@b.com"; cred_password := "Str0ng!Pass" |}.
Definition wrongPassword : Credentials :=
  {| cred_email := "a@b.com"; cred_password := "letmein" |}.
Definition unknownEmail : Credentials :=
  {| cred_email := "x@b.com"; cred_password := "letmein" |}.

(** A sign-up request whose password is below the minimum length. *)
Definition weak : User := set_user_password "abc" alice.

(** The request context of a call to [me]: the verified claims sit in the
    heap at reference 0. *)
Definition world2 : World := set_heap [aliceClaims] world1.

(** A body that leaves a trace when it runs. *)
Definition tick (_ : UserProfile) : M nat :=
  w ← get; modify (set_rng (N.succ (rng w)));; mret (length (users w)).

(** A second request under the e-mail [alice] signed up with. *)
Definition mallory : User :=
  {| user_id := None; user_email := "a@b.com";
     user_password := "0ther#Pass";
     user_permissions := [PermissionKeys.UserManagement] |}.

(** Two further accounts, and a store that holds [alice] and [bob]. *)
Definition bob : User :=
  {| user_id := None; user_email := "bob@b.com";
     user_password := "B0b#Secret";
     user_permissions := [] |}.

Definition carol : User :=
  {| user_id := Some 1; user_email := "carol@b.com";
     user_password := "Car0l#Secret";
     user_permissions := [PermissionKeys.UserBasic] |}.

Definition world3 : World := snd (signup bindings bob world1).

End Sample.

(** ** Store consistency *)

(** The rows have pairwise distinct e-mails and pairwise distinct ids, and
    every id is below the next one the store hands out. *)
Definition storeOk (w : World) : Prop :=
  NoDup (user_email <$> users w)
  /\ NoDup (user_id <$> users w)
  /\ Forall (fun r => exists n, user_id r = Some n /\ n < nextId w) (users w).

(** What sign-up hands to the repository for a request [u] hashed with
    salt [salt]. *)
Definition prepared (B : Bindings) (salt : N) (u : User) : User :=
  {| user_id := user_id u;
     user_email := user_email u;
     user_password := bcryptHash B salt (user_password u);
     user_permissions := defaultPermissions |}.

(** The object [me] leaves behind for claims [c]. *)
Definition exposed (c : UserProfile) : UserProfile :=
  {| securityId := VStr "";
     profile_id := securityId c;
     profile_permissions := profile_permissions c |}.

(** * Properties *)

(** Unfolds one layer of the monad so that a run can be computed. *)
Ltac run :=
  unfold mbind, mret, M_bind, M_ret, bind, ret, throw, get, call, modify,
         liftResult in *; cbn beta iota in *.

Section Properties.

Context (B : Bindings).

Implicit Types (w : World) (u r : User) (c : UserProfile) (tok : Token).

(** ** Token service *)

Lemma verify_issue c ttl t0 t :
  t <= t0 + ttl -> verify B (issue B c ttl t0) t = inr c.
Proof.
  intros Hle. unfold verify, issue.
  rewrite decide_True by reflexivity.
  rewrite decide_False by (cbn; lia).
  reflexivity.
Qed.

(** C5. A token issued for claims [c] with lifetime [ttl] at time [t0]
    verifies to exactly [c] at every time [t] earlier than [t0 + ttl]. *)
Theorem issue_verify_roundtrip c ttl t0 t :
  t < t0 + ttl -> verify B (issue B c ttl t0) t = inr c.
Proof. intros Hlt. apply verify_issue. lia. Qed.

(** ** Authorization guard *)

Lemma guardRun_verified req tok t c :
  verify B tok t = inr c ->
  guardRun B req (Some tok) t =
    if decide (permSet req ∩ permSet (profile_permissions c) = permSet req)
    then Allowed c else Denied InsufficientPermission.
Proof.
  intros Hv. unfold guardRun, Nat.iter. cbn [nat_rect guardStep].
  rewrite Hv. reflexivity.
Qed.

Lemma guardRun_terminal req (bearer : option Token) t :
  (exists c, guardRun B req bearer t = Allowed c)
  \/ (exists e, guardRun B req bearer t = Denied e).
Proof.
  destruct bearer as [tok|]; [|right; by eexists].
  destruct (verify B tok t) as [e|c] eqn:Hv.
  - right. exists e. unfold guardRun, Nat.iter. cbn [nat_rect guardStep].
    by rewrite Hv.
  - rewrite (guardRun_verified _ _ _ _ Hv).
    destruct (decide _); [left|right]; by eexists.
Qed.

Lemma guardRun_subset req tok t c :
  verify B tok t = inr c ->
  permSet req ⊆ permSet (profile_permissions c) ->
  guardRun B req (Some tok) t = Allowed c.
Proof.
  intros Hv Hsub. rewrite (guardRun_verified _ _ _ _ Hv).
  apply decide_True. by apply subseteq_intersection_1_L.
Qed.

Lemma guardRun_not_subset req tok t c :
  verify B tok t = inr c ->
  permSet req ⊈ permSet (profile_permissions c) ->
  guardRun B req (Some tok) t = Denied InsufficientPermission.
Proof.
  intros Hv Hsub. rewrite (guardRun_verified _ _ _ _ Hv).
  apply decide_False. intros Heq. apply Hsub.
  by apply subseteq_intersection_2_L.
Qed.

Lemma guard_allowed req tok w c :
  verify B tok (now w) = inr c ->
  permSet req ⊆ permSet (profile_permissions c) ->
  guard B req (Some tok) w = (inr c, w).
Proof.
  intros Hv Hsub. unfold guard. run.
  by rewrite (guardRun_subset _ _ _ _ Hv Hsub).
Qed.

Lemma guard_denied req tok w c :
  verify B tok (now w) = inr c ->
  permSet req ⊈ permSet (profile_permissions c) ->
  guard B req (Some tok) w = (inl InsufficientPermission, w).
Proof.
  intros Hv Hsub. unfold guard. run.
  by rewrite (guardRun_not_subset _ _ _ _ Hv Hsub).
Qed.

(** C1. For a protected operation [op] and a token that verifies to claims
    [c], the guard allows the call exactly when the permissions [op]
    requires are a subset of those of [c]; an allowed call is the body run
    on [c], and a refused one ends in [InsufficientPermission] with the
    world untouched, whatever the body is. *)
Theorem guard_allows_iff_subset (op : Operation) tok w c :
  verify B tok (now w) = inr c ->
  (guard B (required op) (Some tok) w = (inr c, w)
     <-> permSet (required op) ⊆ permSet (profile_permissions c))
  /\ (permSet (required op) ⊆ permSet (profile_permissions c) ->
      forall A (body : UserProfile -> M A),
        authenticate B (required op) (Some tok) body w = body c w)
  /\ (permSet (required op) ⊈ permSet (profile_permissions c) ->
      forall A (body : UserProfile -> M A),
        authenticate B (required op) (Some tok) body w
        = (inl InsufficientPermission, w)).
Proof.
  intros Hv. split; [split|split].
  - intros Hg.
    destruct (decide (permSet (required op) ⊆ permSet (profile_permissions c)))
      as [Hsub|Hsub]; [exact Hsub|].
    rewrite (guard_denied _ _ _ _ Hv Hsub) in Hg. discriminate.
  - by apply guard_allowed.
  - intros Hsub A body. unfold authenticate. run.
    by rewrite (guard_allowed _ _ _ _ Hv Hsub).
  - intros Hsub A body. unfold authenticate. run.
    by rewrite (guard_denied _ _ _ _ Hv Hsub).
Qed.

(** ** Sign-up *)

Lemma validate_error (cr : Credentials) e :
  validate B cr = inl e -> e = ValidationError.
Proof.
  unfold validate. intros H. repeat case_match; congruence.
Qed.

(** A successful sign-up, spelled out: the row written, the record
    returned and the calls made. *)
Lemma signup_success u w newUser w' :
  signup B u w = (inr newUser, w') ->
  let row := {| user_id := Some (nextId w);
                user_email := user_email u;
                user_password := bcryptHash B (rng w) (user_password u);
                user_permissions := defaultPermissions |} in
  validate B (pick u) = inr tt
  /\ newUser = set_user_password "" row
  /\ users w' = (users w ++ [row])%list
  /\ calls w' = (calls w ++ [CValidateCredentials (pick u);
                             CHashPassword (user_password u);
                             CCreate (set_user_id (user_id u) row)])%list.
Proof.
  unfold signup, validateCredentials, hashPassword, genSalt, create. run.
  destruct (validate B (pick u)) as [e|[]]; [discriminate|].
  cbn. destruct (decide (user_password u = "")); [discriminate|].
  cbn. destruct (List.find _ (users w)); [discriminate|].
  intros [= <- <-]. cbn. split; [reflexivity|]. split; [reflexivity|].
  split; [reflexivity|].
  rewrite <- !app_assoc. destruct u; reflexivity.
Qed.

(** C3. A sign-up that succeeds creates a record whose permissions are
    exactly [AuthFeatures; GetBlogs], in the store and in the answer, and
    the same run results whatever permissions field the request carried. *)
Theorem signup_default_permissions u w newUser w' :
  signup B u w = (inr newUser, w') ->
  user_permissions newUser
    = [PermissionKeys.AuthFeatures; PermissionKeys.GetBlogs]
  /\ (exists row, users w' = (users w ++ [row])%list
        /\ user_id row = user_id newUser
        /\ user_permissions row
           = [PermissionKeys.AuthFeatures; PermissionKeys.GetBlogs])
  /\ forall p, signup B (set_user_permissions p u) w = (inr newUser, w').
Proof.
  intros Hrun. pose proof (signup_success _ _ _ _ Hrun) as (_ & Hnew & Hrows & _).
  split; [by rewrite Hnew|]. split.
  - eexists. split; [exact Hrows|]. by rewrite Hnew.
  - intros p. rewrite <- Hrun. reflexivity.
Qed.

(** C7. A sign-up that succeeds answers with the created record whose
    password field is the empty string; the hash stays in the stored row. *)
Theorem signup_strips_password u w newUser w' :
  signup B u w = (inr newUser, w') ->
  user_password newUser = ""
  /\ exists row, users w' = (users w ++ [row])%list
       /\ user_password row = bcryptHash B (rng w) (user_password u)
       /\ newUser = set_user_password "" row.
Proof.
  intros Hrun. pose proof (signup_success _ _ _ _ Hrun) as (_ & Hnew & Hrows & _).
  split; [by rewrite Hnew|].
  eexists. split; [exact Hrows|]. split; [reflexivity|exact Hnew].
Qed.

Lemma signup_rejected u w e :
  validate B (pick u) = inl e ->
  signup B u w = (inl ValidationError, logged (CValidateCredentials (pick u)) w).
Proof.
  intros Hv. pose proof (validate_error _ _ Hv) as ->.
  unfold signup, validateCredentials. run. by rewrite Hv.
Qed.

Lemma signup_calls u w :
  exists rest,
    calls (snd (signup B u w))
      = (calls w ++ CValidateCredentials (pick u) :: rest)%list
    /\ (rest = []
        \/ rest = [CHashPassword (user_password u)]
        \/ exists stored, rest = [CHashPassword (user_password u); CCreate stored]).
Proof.
  unfold signup, validateCredentials, hashPassword, genSalt, create. run.
  destruct (validate B (pick u)) as [e|[]].
  { exists []. cbn. auto. }
  cbn. destruct (decide (user_password u = "")).
  { eexists. cbn. rewrite <- app_assoc. split; [reflexivity|]. auto. }
  cbn. destruct (List.find _ (users w)); eexists; cbn;
    rewrite <- !app_assoc; (split; [reflexivity|]); eauto.
Qed.

(** C4. In every run of sign-up the validation of the credentials is the
    first call made, ahead of hashing and of the store's [create]; when the
    validation rejects them the run ends in [ValidationError] having made
    no other call, and the store is as it was. *)
Theorem signup_validates_first u w :
  (exists rest,
     calls (snd (signup B u w))
       = (calls w ++ CValidateCredentials (pick u) :: rest)%list
     /\ (rest = []
         \/ rest = [CHashPassword (user_password u)]
         \/ exists stored,
              rest = [CHashPassword (user_password u); CCreate stored]))
  /\ forall e, validate B (pick u) = inl e ->
       signup B u w
         = (inl ValidationError, logged (CValidateCredentials (pick u)) w)
       /\ users (snd (signup B u w)) = users w
       /\ nextId (snd (signup B u w)) = nextId w
       /\ rng (snd (signup B u w)) = rng w.
Proof.
  split; [apply signup_calls|].
  intros e Hv. rewrite (signup_rejected _ _ _ Hv). by repeat split.
Qed.

(** ** Login *)

Lemma verifyCredentials_run (cr : Credentials) w :
  verifyCredentials B cr w =
    (match findByEmail (normalizeEmail B (cred_email cr)) (users w) with
     | None => inl InvalidCredentials
     | Some r =>
         if comparePassword B (cred_password cr) (user_password r)
         then inr r else inl InvalidCredentials
     end,
     logged (CVerifyCredentials cr) w).
Proof.
  unfold verifyCredentials, logged. run. cbn [users set_calls].
  destruct (findByEmail _ (users w)) as [r|]; [|reflexivity].
  by destruct (comparePassword B _ _).
Qed.

Lemma login_run (cr : Credentials) w :
  login B cr w =
    match verifyCredentials B cr w with
    | (inl e, w1) => (inl e, w1)
    | (inr user, w1) =>
        let userProfile :=
          set_profile_permissions (user_permissions user)
                                  (convertToUserProfile user) in
        (inr {| token := issue B userProfile (TOKEN_EXPIRES_IN B) (now w1) |},
         logged (CGenerateToken userProfile) w1)
    end.
Proof.
  unfold login, generateToken. run.
  destruct (verifyCredentials B cr w) as [[e|user] w1]; reflexivity.
Qed.


(** C2. When a login succeeds, the store holds a record under the given
    e-mail whose password matches, and the claims carried by the returned
    token, decoded or verified at any time up to its expiry, have exactly
    that record's permissions. *)
Theorem login_token_permissions (credentials : Credentials) w resp w' :
  login B credentials w = (inr resp, w') ->
  exists r,
    findByEmail (normalizeEmail B (cred_email credentials)) (users w') = Some r
    /\ comparePassword B (cred_password credentials) (user_password r) = true
    /\ (exists body sig,
          token resp = Jwt body sig
          /\ profile_permissions (claims body) = user_permissions r
          /\ permSet (profile_permissions (claims body))
             = permSet (user_permissions r))
    /\ forall t, t <= now w + TOKEN_EXPIRES_IN B ->
         exists c, verify B (token resp) t = inr c
                   /\ profile_permissions c = user_permissions r.
Proof.
  rewrite login_run, verifyCredentials_run.
  destruct (findByEmail _ (users w)) as [r|] eqn:Hfind; [|discriminate].
  destruct (comparePassword B _ _) eqn:Hcmp; [|discriminate].
  cbn. intros [= <- <-]. exists r. cbn.
  split; [exact Hfind|]. split; [exact Hcmp|]. split.
  - do 2 eexists. split; [reflexivity|]. split; reflexivity.
  - intros t Ht. eexists. split; [by apply verify_issue|reflexivity].
Qed.

(** C6. A login under an e-mail the store does not know and a login under
    a known e-mail with a password that does not match end in the same
    [InvalidCredentials] error. *)
Theorem login_failures_indistinguishable (unknown wrong : Credentials) w r :
  findByEmail (normalizeEmail B (cred_email unknown)) (users w) = None ->
  findByEmail (normalizeEmail B (cred_email wrong)) (users w) = Some r ->
  comparePassword B (cred_password wrong) (user_password r) = false ->
  fst (login B unknown w) = inl InvalidCredentials
  /\ fst (login B wrong w) = inl InvalidCredentials
  /\ fst (login B unknown w) = fst (login B wrong w)
  /\ fst (verifyCredentials B unknown w) = fst (verifyCredentials B wrong w).
Proof.
  intros Hnone Hsome Hcmp.
  rewrite !login_run, !verifyCredentials_run, Hnone, Hsome, Hcmp.
  by repeat split.
Qed.

(** C10. When [verifyCredentials] throws, login ends with that same error
    in the world [verifyCredentials] left, in which the only call made is
    the verification itself: [generateToken] has not been called and no
    run of login on these inputs returns a token. *)
Theorem login_needs_verified_credentials (credentials : Credentials) w e w1 :
  verifyCredentials B credentials w = (inl e, w1) ->
  login B credentials w = (inl e, w1)
  /\ calls w1 = (calls w ++ [CVerifyCredentials credentials])%list
  /\ (forall p, CGenerateToken p ∈ calls w1 -> CGenerateToken p ∈ calls w)
  /\ forall resp w', login B credentials w <> (inr resp, w').
Proof.
  intros Hvc. rewrite login_run, Hvc.
  rewrite verifyCredentials_run in Hvc. injection Hvc as _ <-.
  split; [reflexivity|]. split; [reflexivity|]. split; [|discriminate].
  intros p. cbn. rewrite elem_of_app, list_elem_of_singleton.
  intros [Hin|Habs]; [exact Hin|discriminate].
Qed.

(** ** The [me] endpoint *)

Lemma me_run w (currentUser : loc) c :
  heap w !! currentUser = Some c ->
  me currentUser w =
    (inr currentUser,
     set_heap (<[currentUser :=
                   {| securityId := VStr "";
                      profile_id := securityId c;
                      profile_permissions := profile_permissions c |}]>
                 (heap w)) w).
Proof.
  intros Hc. pose proof (lookup_lt_Some _ _ _ Hc) as Hlt.
  unfold me, deref, assign. run.
  repeat (first [rewrite Hc | rewrite list_lookup_insert_eq by exact Hlt]; cbn).
  by rewrite list_insert_insert_eq.
Qed.

(** C8, as the code has it. On a reference to the claims object, [me]
    answers with that same reference, and the object it designates now
    carries the former subject identifier in its id field and the empty
    string in its security-id field; every other object, the store and the
    log are as before. *)
Theorem me_exposes_subject_in_place w (currentUser : loc) c :
  heap w !! currentUser = Some c ->
  exists w',
    me currentUser w = (inr currentUser, w')
    /\ heap w' !! currentUser
       = Some {| securityId := VStr "";
                 profile_id := securityId c;
                 profile_permissions := profile_permissions c |}
    /\ (forall l : loc, l <> currentUser -> heap w' !! l = heap w !! l)
    /\ users w' = users w
    /\ calls w' = calls w.
Proof.
  intros Hc. eexists. split; [by apply me_run|]. cbn.
  split; [apply list_lookup_insert_eq; by eapply lookup_lt_Some|].
  split; [|by split].
  intros l Hne. by apply list_lookup_insert_ne.
Qed.

End Properties.

(** * Further properties of the controller *)

(** Settles a closed decidable goal, or its negation, by evaluation. *)
Ltac by_decision :=
  match goal with
  | |- ~ ?P => apply (proj1 (bool_decide_eq_false P)); vm_compute; reflexivity
  | |- ?P => apply (bool_decide_unpack P); vm_compute; exact I
  end.

Section Composition.

Context (B : Bindings).

Implicit Types (w : World) (u r : User) (c : UserProfile) (tok : Token).

(** ** Sign-up, run by run *)

Lemma signup_run u w :
  signup B u w =
    let w1 := logged (CValidateCredentials (pick u)) w in
    match validate B (pick u) with
    | inl e => (inl e, w1)
    | inr _ =>
        let w2 := logged (CHashPassword (user_password u)) w1 in
        if decide (user_password u = "") then (inl ValidationError, w2)
        else
          let stored := prepared B (rng w) u in
          let w3 := logged (CCreate stored) (set_rng (N.succ (rng w)) w2) in
          match findByEmail (user_email u) (users w) with
          | Some _ => (inl DuplicateEmail, w3)
          | None =>
              let row := set_user_id (Some (nextId w)) stored in
              (inr (set_user_password "" row),
               set_nextId (nextId w + 1)
                 (set_users (users w ++ [row]) w3))
          end
    end.
Proof.
  unfold signup, validateCredentials, hashPassword, genSalt, create, logged.
  run. destruct (validate B (pick u)) as [e|[]]; [reflexivity|].
  cbn. destruct (decide (user_password u = "")); [reflexivity|].
  cbn. unfold findByEmail.
  destruct (List.find _ (users w)); reflexivity.
Qed.

(** ** Look-up by e-mail *)

Lemma findByEmail_Some e (rows : list User) r :
  findByEmail e rows = Some r -> r ∈ rows /\ user_email r = e.
Proof.
  unfold findByEmail. induction rows as [|x rows IH]; cbn; [discriminate|].
  case_bool_decide as Hx.
  - intros [= <-]. split; [left|exact Hx].
  - intros Hfind. destruct (IH Hfind) as [Hin Heq]. split; [by right|exact Heq].
Qed.

Lemma findByEmail_None e (rows : list User) :
  findByEmail e rows = None <-> e ∉ user_email <$> rows.
Proof.
  unfold findByEmail. induction rows as [|x rows IH]; cbn.
  - split; [intros _; apply not_elem_of_nil|reflexivity].
  - rewrite not_elem_of_cons. case_bool_decide as Hx.
    + split; [discriminate|]. intros [Hne _]. by destruct Hne.
    + rewrite IH. split; [intros Hnot; split; [congruence|exact Hnot]|tauto].
Qed.

Lemma findByEmail_app e (rows more : list User) :
  findByEmail e (rows ++ more) =
    match findByEmail e rows with
    | Some r => Some r
    | None => findByEmail e more
    end.
Proof.
  unfold findByEmail. induction rows as [|x rows IH]; cbn; [reflexivity|].
  by case_bool_decide.
Qed.

(** ** Sign-up: failures, repeated e-mails, consistency *)


(** X2. Whenever sign-up throws, the error is [ValidationError] or
    [DuplicateEmail], and the rows of the store, its id counter and the
    heap are as they were. *)
Theorem signup_failure_leaves_store u w e w' :
  signup B u w = (inl e, w') ->
  (e = ValidationError \/ e = DuplicateEmail)
  /\ users w' = users w
  /\ nextId w' = nextId w
  /\ heap w' = heap w.
Proof.
  rewrite signup_run. cbn zeta.
  destruct (validate B (pick u)) as [e0|[]] eqn:Hv.
  { intros [= <- <-]. rewrite (validate_error B _ _ Hv). by auto. }
  destruct (decide (user_password u = "")).
  { intros [= <- <-]. by auto. }
  destruct (findByEmail (user_email u) (users w)); [|discriminate].
  intros [= <- <-]. by auto.
Qed.

(** X3. After a successful sign-up, every further sign-up under the same
    e-mail throws and leaves the rows of the store alone, whatever else the
    second request contains. *)
Theorem signup_twice_rejected u w newUser w1 u2 :
  signup B u w = (inr newUser, w1) ->
  user_email u2 = user_email u ->
  exists e w2, signup B u2 w1 = (inl e, w2)
               /\ (e = ValidationError \/ e = DuplicateEmail)
               /\ users w2 = users w1.
Proof.
  intros Hfirst Hemail.
  assert (Htaken : exists r, findByEmail (user_email u2) (users w1) = Some r).
  { rewrite signup_run in Hfirst. cbn zeta in Hfirst.
    destruct (validate B (pick u)) as [?|[]]; [discriminate|].
    destruct (decide (user_password u = "")); [discriminate|].
    destruct (findByEmail (user_email u) (users w)) eqn:Hfree; [discriminate|].
    injection Hfirst as _ <-. cbn -[findByEmail].
    rewrite findByEmail_app, Hemail, Hfree.
    unfold findByEmail. cbn. rewrite bool_decide_eq_true_2 by reflexivity.
    by eexists. }
  destruct Htaken as [r Hr].
  rewrite signup_run. cbn zeta. rewrite Hr.
  destruct (validate B (pick u2)) as [e0|[]] eqn:Hv.
  { rewrite (validate_error B _ _ Hv). do 2 eexists. by auto. }
  destruct (decide (user_password u2 = "")); do 2 eexists; by auto.
Qed.

(** X4. Sign-up keeps the store consistent in every outcome: e-mails stay
    pairwise distinct, ids stay pairwise distinct and below the id
    counter. *)
Theorem signup_keeps_store_consistent u w :
  storeOk w -> storeOk (snd (signup B u w)).
Proof.
  intros (Hemails & Hids & Hbound). rewrite signup_run. cbn zeta.
  destruct (validate B (pick u)) as [e|[]]; [by repeat split|].
  destruct (decide (user_password u = "")); [by repeat split|].
  destruct (findByEmail (user_email u) (users w)) eqn:Hfree; [by repeat split|].
  apply findByEmail_None in Hfree.
  unfold storeOk. cbn -[findByEmail]. rewrite !fmap_app. cbn.
  split; [|split].
  - apply NoDup_app. split; [exact Hemails|]. split; [|apply NoDup_singleton].
    intros x Hx Hnew. apply list_elem_of_singleton in Hnew. by subst x.
  - apply NoDup_app. split; [exact Hids|]. split; [|apply NoDup_singleton].
    intros x Hx Hnew. apply list_elem_of_singleton in Hnew. subst x.
    apply list_elem_of_fmap in Hx as (r & Hid & Hr).
    rewrite Forall_forall in Hbound. destruct (Hbound r Hr) as (k & Hk & Hlt).
    rewrite Hk in Hid. injection Hid as Hid. lia.
  - apply Forall_app. split.
    + eapply Forall_impl; [exact Hbound|].
      intros r (k & Hk & Hlt). exists k. split; [exact Hk|lia].
    + apply Forall_singleton. eexists. split; [reflexivity|lia].
Qed.

(** X5. Whatever sign-up passes to the repository's [create] carries the
    default permissions and the hash of the request's password in place of
    the plaintext; the e-mail and the id field of the request go through
    unchanged. *)
Theorem signup_create_argument u w stored :
  CCreate stored ∈ calls (snd (signup B u w)) ->
  CCreate stored ∈ calls w
  \/ (user_permissions stored = defaultPermissions
      /\ user_password stored = bcryptHash B (rng w) (user_password u)
      /\ user_email stored = user_email u
      /\ user_id stored = user_id u).
Proof.
  rewrite signup_run. cbn zeta. unfold logged.
  destruct (validate B (pick u)) as [e|[]]; cbn.
  { rewrite elem_of_app, list_elem_of_singleton. intros [H|[=]]. by left. }
  destruct (decide (user_password u = "")); cbn.
  { rewrite !elem_of_app, !list_elem_of_singleton. intros [[H|[=]]|[=]]. by left. }
  assert (Hlog : CCreate stored
                   ∈ (((calls w ++ [CValidateCredentials (pick u)])
                         ++ [CHashPassword (user_password u)])
                         ++ [CCreate (prepared B (rng w) u)])%list ->
                 CCreate stored ∈ calls w \/ stored = prepared B (rng w) u).
  { rewrite !elem_of_app, !list_elem_of_singleton.
    intros [[[H|[=]]|[=]]|[= ->]]; by auto. }
  destruct (findByEmail (user_email u) (users w)); cbn; intros Hin;
    (destruct (Hlog Hin) as [Hold| ->]; [by left|right; by repeat split]).
Qed.

(** ** Sign-up followed by login *)

(** X6. A record created by sign-up can log in with the credentials it
    signed up with, provided the e-mail is in normal form and the hasher
    accepts the password against its own hash: the token then names the
    id the store assigned, carries the default permissions and verifies
    until it expires. Login leaves the rows of the store alone. *)
Theorem signup_then_login u w newUser w1 :
  signup B u w = (inr newUser, w1) ->
  normalizeEmail B (user_email u) = user_email u ->
  bcryptCompare B (user_password u)
                (bcryptHash B (rng w) (user_password u)) = true ->
  exists body sig w2,
    login B (pick u) w1 = (inr {| token := Jwt body sig |}, w2)
    /\ securityId (claims body) = idValue (user_id newUser)
    /\ securityId (claims body) = VNum (nextId w)
    /\ profile_permissions (claims body) = defaultPermissions
    /\ users w2 = users w1
    /\ forall t, t <= now w1 + TOKEN_EXPIRES_IN B ->
         verify B (Jwt body sig) t = inr (claims body).
Proof.
  intros Hsignup Hnorm Hcmp. rewrite signup_run in Hsignup. cbn zeta in Hsignup.
  destruct (validate B (pick u)) as [?|[]]; [discriminate|].
  destruct (decide (user_password u = "")); [discriminate|].
  destruct (findByEmail (user_email u) (users w)) eqn:Hfree; [discriminate|].
  injection Hsignup as <- <-.
  rewrite login_run, verifyCredentials_run. cbn -[findByEmail issue].
  rewrite findByEmail_app, Hnorm, Hfree. unfold findByEmail. cbn -[issue].
  rewrite bool_decide_eq_true_2 by reflexivity.
  unfold comparePassword. cbn -[issue]. rewrite Hcmp. cbn -[issue].
  do 3 eexists. split; [reflexivity|]. cbn.
  repeat (split; [reflexivity|]).
  intros t Ht. by apply (verify_issue B).
Qed.

(** X7. Claims that hold the default permissions of a new account pass
    the guard of [me] and of no other protected operation: [count],
    [find], [findById], [replaceById] and [deleteById] are refused with
    [InsufficientPermission] before their body runs. *)
Theorem default_permissions_reach_only_me (op : Operation) tok w c :
  verify B tok (now w) = inr c ->
  permSet (profile_permissions c) = permSet defaultPermissions ->
  (guard B (required op) (Some tok) w = (inr c, w) <-> op = Me)
  /\ (op <> Me ->
      forall A (body : UserProfile -> M A),
        authenticate B (required op) (Some tok) body w
        = (inl InsufficientPermission, w)).
Proof.
  intros Hv Hperm.
  assert (Hme : permSet (required Me) ⊆ permSet (profile_permissions c)).
  { rewrite Hperm. by_decision. }
  assert (Hother : op <> Me ->
                   permSet (required op) ⊈ permSet (profile_permissions c)).
  { rewrite Hperm. intros Hop.
    destruct op; try (by destruct Hop); by_decision. }
  split.
  - split.
    + intros Hg.
      assert (Hdec : op = Me \/ op <> Me)
        by (destruct op; (by left) || (by right)).
      destruct Hdec as [Hop|Hop]; [exact Hop|].
      rewrite (guard_denied B _ _ _ _ Hv (Hother Hop)) in Hg. discriminate.
    + intros ->. by apply guard_allowed.
  - intros Hop A body. unfold authenticate. run.
    by rewrite (guard_denied B _ _ _ _ Hv (Hother Hop)).
Qed.

(** ** Login *)

(** X8. In every outcome login leaves the store, the id counter, the
    entropy, the clock and the heap as they were; the calls it logs are
    [verifyCredentials] and then, at most once, [generateToken] (the
    mapping [convertToUserProfile] in between is a function and logs
    nothing). *)
Theorem login_only_reads (credentials : Credentials) w :
  users (snd (login B credentials w)) = users w
  /\ nextId (snd (login B credentials w)) = nextId w
  /\ rng (snd (login B credentials w)) = rng w
  /\ now (snd (login B credentials w)) = now w
  /\ heap (snd (login B credentials w)) = heap w
  /\ exists rest,
       calls (snd (login B credentials w))
         = (calls w ++ CVerifyCredentials credentials :: rest)%list
       /\ (rest = [] \/ exists p, rest = [CGenerateToken p]).
Proof.
  rewrite login_run, verifyCredentials_run.
  destruct (findByEmail _ (users w)) as [r|].
  - destruct (comparePassword B _ _); cbn; repeat (split; [reflexivity|]).
    + eexists. rewrite <- app_assoc. split; [reflexivity|]. right. by eexists.
    + exists []. by auto.
  - cbn. repeat (split; [reflexivity|]). exists []. by auto.
Qed.

(** ** The [me] endpoint *)

(** X9. Calling [me] a second time on the same object erases the subject:
    the first call moved it to the id field and blanked the security id,
    the second copies that blank over the id. *)
Theorem me_twice_loses_subject w (currentUser : loc) c :
  heap w !! currentUser = Some c ->
  exists w1 w2,
    me currentUser w = (inr currentUser, w1)
    /\ heap w1 !! currentUser = Some (exposed c)
    /\ me currentUser w1 = (inr currentUser, w2)
    /\ heap w2 !! currentUser
       = Some {| securityId := VStr "";
                 profile_id := VStr "";
                 profile_permissions := profile_permissions c |}.
Proof.
  intros Hc. pose proof (lookup_lt_Some _ _ _ Hc) as Hlt.
  assert (Hfirst : heap (set_heap (<[currentUser := exposed c]> (heap w)) w)
                     !! currentUser = Some (exposed c))
    by (by apply list_lookup_insert_eq).
  do 2 eexists. split; [by apply me_run|].
  split; [exact Hfirst|].
  split; [by apply me_run|].
  cbn. apply list_lookup_insert_eq. by rewrite length_insert.
Qed.

(** ** [find] and [count] *)

(** X11. After a successful sign-up, [find] without a filter answers with
    the earlier rows followed by the new one as stored, password hash
    included (the record sign-up answered with is that row with the hash
    blanked), and [count] without a where-clause has grown by one. Neither
    changes the world. *)
Theorem signup_then_find u w newUser w1 :
  signup B u w = (inr newUser, w1) ->
  exists row,
    find None w1 = (inr (users w ++ [row])%list, w1)
    /\ user_password row = bcryptHash B (rng w) (user_password u)
    /\ newUser = set_user_password "" row
    /\ count None w1 = (inr (S (length (users w))), w1).
Proof.
  intros Hrun.
  destruct (signup_success B _ _ _ _ Hrun) as (_ & Hnew & Hrows & _).
  eexists. unfold find, count. run. cbn. rewrite Hrows.
  split; [reflexivity|]. split; [reflexivity|]. split; [exact Hnew|].
  by rewrite List.length_app, Nat.add_1_r.
Qed.

End Composition.

(** * Concrete runs *)

Lemma issue_verify_roundtrip_witness :
  1000 < 1000 + 3600
  /\ verify Sample.bindings
         (issue Sample.bindings Sample.aliceClaims 3600 1000) 1000
     = inr Sample.aliceClaims.
Proof.
  split; [lia|].
  apply (issue_verify_roundtrip Sample.bindings Sample.aliceClaims 3600 1000 1000).
  lia.
Defined.

(** A [UserManagement] operation called with a token holding only the
    default permissions: refused, and the body has not run. *)
Lemma guard_allows_iff_subset_witness :
  verify Sample.bindings Sample.aliceToken (now Sample.world1)
    = inr Sample.aliceClaims
  /\ authenticate Sample.bindings (required Find) (Some Sample.aliceToken)
       Sample.tick Sample.world1
     = (inl InsufficientPermission, Sample.world1).
Proof.
  split; [reflexivity|].
  apply (guard_allows_iff_subset Sample.bindings Find Sample.aliceToken
           Sample.world1 Sample.aliceClaims eq_refl).
  apply (proj1 (bool_decide_eq_false
                  (permSet (required Find)
                     ⊆ permSet (profile_permissions Sample.aliceClaims)))).
  vm_compute. reflexivity.
Defined.

Lemma signup_default_permissions_witness :
  signup Sample.bindings Sample.alice Sample.world0
    = (inr Sample.aliceCreated, Sample.world1)
  /\ user_permissions Sample.aliceCreated
     = [PermissionKeys.AuthFeatures; PermissionKeys.GetBlogs]
  /\ signup Sample.bindings (set_user_permissions [] Sample.alice) Sample.world0
     = (inr Sample.aliceCreated, Sample.world1).
Proof.
  split; [reflexivity|].
  destruct (signup_default_permissions Sample.bindings Sample.alice
              Sample.world0 Sample.aliceCreated Sample.world1 eq_refl)
    as (Hperm & _ & Hany).
  split; [exact Hperm|exact (Hany [])].
Defined.

Lemma signup_strips_password_witness :
  signup Sample.bindings Sample.alice Sample.world0
    = (inr Sample.aliceCreated, Sample.world1)
  /\ user_password Sample.aliceCreated = "".
Proof.
  split; [reflexivity|].
  apply (signup_strips_password Sample.bindings Sample.alice Sample.world0
           Sample.aliceCreated Sample.world1 eq_refl).
Defined.

(** Password "abc": rejected before anything reaches the store. *)
Lemma signup_validates_first_witness :
  validate Sample.bindings (pick Sample.weak) = inl ValidationError
  /\ signup Sample.bindings Sample.weak Sample.world0
     = (inl ValidationError,
        logged (CValidateCredentials (pick Sample.weak)) Sample.world0)
  /\ users (snd (signup Sample.bindings Sample.weak Sample.world0)) = [].
Proof.
  split; [reflexivity|].
  destruct (proj2 (signup_validates_first Sample.bindings Sample.weak
                     Sample.world0) ValidationError eq_refl)
    as (Hrun & Hstore & _).
  split; [exact Hrun|exact Hstore].
Defined.

Lemma login_token_permissions_witness :
  login Sample.bindings Sample.goodLogin Sample.world1
    = (inr {| token := Sample.aliceToken |},
       snd (login Sample.bindings Sample.goodLogin Sample.world1))
  /\ exists c, verify Sample.bindings Sample.aliceToken 4600 = inr c
               /\ profile_permissions c = user_permissions Sample.aliceRow.
Proof.
  split; [reflexivity|].
  destruct (login_token_permissions Sample.bindings Sample.goodLogin
              Sample.world1 _ _ eq_refl) as (r & Hfind & _ & _ & Hverify).
  injection Hfind as <-.
  apply (Hverify 4600). reflexivity.
Defined.

Lemma login_failures_indistinguishable_witness :
  findByEmail (normalizeEmail Sample.bindings (cred_email Sample.unknownEmail))
              (users Sample.world1) = None
  /\ findByEmail (normalizeEmail Sample.bindings (cred_email Sample.wrongPassword))
                 (users Sample.world1) = Some Sample.aliceRow
  /\ comparePassword Sample.bindings (cred_password Sample.wrongPassword)
                     (user_password Sample.aliceRow) = false
  /\ fst (login Sample.bindings Sample.unknownEmail Sample.world1)
     = fst (login Sample.bindings Sample.wrongPassword Sample.world1).
Proof.
  split; [reflexivity|]. split; [reflexivity|]. split; [reflexivity|].
  apply (login_failures_indistinguishable Sample.bindings Sample.unknownEmail
           Sample.wrongPassword Sample.world1 Sample.aliceRow
           eq_refl eq_refl eq_refl).
Defined.

Lemma login_needs_verified_credentials_witness :
  verifyCredentials Sample.bindings Sample.wrongPassword Sample.world1
    = (inl InvalidCredentials,
       logged (CVerifyCredentials Sample.wrongPassword) Sample.world1)
  /\ login Sample.bindings Sample.wrongPassword Sample.world1
     = (inl InvalidCredentials,
        logged (CVerifyCredentials Sample.wrongPassword) Sample.world1).
Proof.
  split; [reflexivity|].
  apply (login_needs_verified_credentials Sample.bindings Sample.wrongPassword
           Sample.world1 InvalidCredentials _ eq_refl).
Defined.

Lemma me_exposes_subject_in_place_witness :
  heap Sample.world2 !! 0%nat = Some Sample.aliceClaims
  /\ exists w',
       me 0%nat Sample.world2 = (inr 0%nat, w')
       /\ heap w' !! 0%nat
          = Some {| securityId := VStr ""; profile_id := VNum 1;
                    profile_permissions := defaultPermissions |}.
Proof.
  split; [reflexivity|].
  destruct (me_exposes_subject_in_place Sample.world2 0%nat Sample.aliceClaims
              eq_refl) as (w' & Hrun & Hobj & _).
  exists w'. split; [exact Hrun|exact Hobj].
Defined.

(** C8 as stated fails: [me] answers with the very reference it was given
    and the claims object behind it no longer holds the claims. *)
Lemma me_overwrites_claims_object :
  heap Sample.world2 !! 0%nat = Some Sample.aliceClaims
  /\ ~ exists (out : loc) w',
        me 0%nat Sample.world2 = (inr out, w')
        /\ heap w' !! out
           = Some {| securityId := VStr ""; profile_id := VNum 1;
                     profile_permissions := defaultPermissions |}
        /\ heap w' !! 0%nat = Some Sample.aliceClaims
        /\ out <> 0%nat.
Proof.
  split; [reflexivity|].
  intros (out & w' & Hrun & _ & Hkept & _).
  rewrite (me_run Sample.world2 0%nat Sample.aliceClaims eq_refl) in Hrun.
  injection Hrun as _ <-. discriminate Hkept.
Qed.


(** ** Runs for the further properties *)


Lemma signup_failure_leaves_store_witness :
  signup Sample.bindings Sample.mallory Sample.world1
    = (inl DuplicateEmail,
       snd (signup Sample.bindings Sample.mallory Sample.world1))
  /\ users (snd (signup Sample.bindings Sample.mallory Sample.world1))
     = users Sample.world1.
Proof.
  split; [reflexivity|].
  apply (signup_failure_leaves_store Sample.bindings Sample.mallory
           Sample.world1 DuplicateEmail _ eq_refl).
Defined.

Lemma signup_twice_rejected_witness :
  signup Sample.bindings Sample.alice Sample.world0
    = (inr Sample.aliceCreated, Sample.world1)
  /\ user_email Sample.mallory = user_email Sample.alice
  /\ exists e w2,
       signup Sample.bindings Sample.mallory Sample.world1 = (inl e, w2)
       /\ users w2 = users Sample.world1.
Proof.
  split; [reflexivity|]. split; [reflexivity|].
  destruct (signup_twice_rejected Sample.bindings Sample.alice Sample.world0
              Sample.aliceCreated Sample.world1 Sample.mallory
              eq_refl eq_refl) as (e & w2 & Hrun & _ & Hrows).
  exists e, w2. split; [exact Hrun|exact Hrows].
Defined.

(** A store holding two accounts takes a third: three distinct e-mails
    and ids, although the request asked for an id already in use. *)
Lemma signup_keeps_store_consistent_witness :
  storeOk Sample.world3
  /\ storeOk (snd (signup Sample.bindings Sample.carol Sample.world3))
  /\ (user_email <$> users (snd (signup Sample.bindings Sample.carol
                                       Sample.world3)))
     = ["a@b.com"; "bob@b.com"; "carol@b.com"]
  /\ (user_id <$> users (snd (signup Sample.bindings Sample.carol
                                    Sample.world3)))
     = [Some 1; Some 2; Some 3].
Proof.
  assert (Htwo : storeOk Sample.world3).
  { split; [by_decision|]. split; [by_decision|].
    repeat constructor; eexists; (split; [reflexivity|]); vm_compute;
      reflexivity. }
  split; [exact Htwo|].
  split; [|split; reflexivity].
  exact (signup_keeps_store_consistent Sample.bindings Sample.carol
           Sample.world3 Htwo).
Defined.

Lemma signup_create_argument_witness :
  CCreate (prepared Sample.bindings 0 Sample.alice)
    ∈ calls (snd (signup Sample.bindings Sample.alice Sample.world0))
  /\ (CCreate (prepared Sample.bindings 0 Sample.alice) ∈ calls Sample.world0
      \/ (user_permissions (prepared Sample.bindings 0 Sample.alice)
            = defaultPermissions
          /\ user_password (prepared Sample.bindings 0 Sample.alice)
             = bcryptHash Sample.bindings (rng Sample.world0)
                          (user_password Sample.alice)
          /\ user_email (prepared Sample.bindings 0 Sample.alice)
             = user_email Sample.alice
          /\ user_id (prepared Sample.bindings 0 Sample.alice)
             = user_id Sample.alice)).
Proof.
  assert (Hin : CCreate (prepared Sample.bindings 0 Sample.alice)
                  ∈ calls (snd (signup Sample.bindings Sample.alice
                                       Sample.world0)))
    by (do 2 apply list_elem_of_further; apply list_elem_of_here).
  split; [exact Hin|].
  exact (signup_create_argument Sample.bindings Sample.alice Sample.world0
           _ Hin).
Defined.

Lemma signup_then_login_witness :
  signup Sample.bindings Sample.alice Sample.world0
    = (inr Sample.aliceCreated, Sample.world1)
  /\ normalizeEmail Sample.bindings (user_email Sample.alice)
     = user_email Sample.alice
  /\ bcryptCompare Sample.bindings (user_password Sample.alice)
       (bcryptHash Sample.bindings (rng Sample.world0)
                   (user_password Sample.alice)) = true
  /\ exists body sig w2,
       login Sample.bindings (pick Sample.alice) Sample.world1
         = (inr {| token := Jwt body sig |}, w2)
       /\ securityId (claims body) = VNum 1
       /\ profile_permissions (claims body) = defaultPermissions.
Proof.
  split; [reflexivity|]. split; [reflexivity|]. split; [reflexivity|].
  destruct (signup_then_login Sample.bindings Sample.alice Sample.world0
              Sample.aliceCreated Sample.world1 eq_refl eq_refl eq_refl)
    as (body & sig & w2 & Hrun & _ & Hid & Hperm & _).
  exists body, sig, w2. split; [exact Hrun|]. split; [exact Hid|exact Hperm].
Defined.

Lemma default_permissions_reach_only_me_witness :
  verify Sample.bindings Sample.aliceToken (now Sample.world1)
    = inr Sample.aliceClaims
  /\ permSet (profile_permissions Sample.aliceClaims)
     = permSet defaultPermissions
  /\ authenticate Sample.bindings (required DeleteById)
       (Some Sample.aliceToken) Sample.tick Sample.world1
     = (inl InsufficientPermission, Sample.world1).
Proof.
  split; [reflexivity|]. split; [reflexivity|].
  apply (default_permissions_reach_only_me Sample.bindings DeleteById
           Sample.aliceToken Sample.world1 Sample.aliceClaims
           eq_refl eq_refl).
  discriminate.
Defined.

Lemma me_twice_loses_subject_witness :
  heap Sample.world2 !! 0%nat = Some Sample.aliceClaims
  /\ exists w1 w2,
       me 0%nat Sample.world2 = (inr 0%nat, w1)
       /\ me 0%nat w1 = (inr 0%nat, w2)
       /\ heap w2 !! 0%nat
          = Some {| securityId := VStr ""; profile_id := VStr "";
                    profile_permissions := defaultPermissions |}.
Proof.
  split; [reflexivity|].
  destruct (me_twice_loses_subject Sample.world2 0%nat Sample.aliceClaims
              eq_refl) as (w1 & w2 & Hone & _ & Htwo & Hobj).
  exists w1, w2. split; [exact Hone|]. split; [exact Htwo|exact Hobj].
Defined.

Lemma signup_then_find_witness :
  signup Sample.bindings Sample.alice Sample.world0
    = (inr Sample.aliceCreated, Sample.world1)
  /\ exists row,
       find None Sample.world1 = (inr [row], Sample.world1)
       /\ user_password row = Sample.hash 0 "Str0ng!Pass"
       /\ count None Sample.world1 = (inr 1%nat, Sample.world1).
Proof.
  split; [reflexivity|].
  destruct (signup_then_find Sample.bindings Sample.alice Sample.world0
              Sample.aliceCreated Sample.world1 eq_refl)
    as (row & Hfind & Hpw & _ & Hcount).
  exists row. split; [exact Hfind|]. split; [exact Hpw|exact Hcount].
Defined.
